(** * gcpdiag lint rule gce/WARN/2025_001: time synchronization errors

    A shallow embedding of
    [gcpdiag/lint/gce/warn_2025_001_time_synchronization_errors.py]
    and of the collaborators it calls, together with the properties of the
    rule that the design document states.

    Python values are embedded as follows.
    - [str] is [string] (a sequence of bytes; UTF-8 keeps the code point
      order, so [String.leb] is Python's [<=] on [str]).
    - a [dict] whose iteration order matters is an association list, the
      module level dict [logs_by_project] is a [gmap].
    - [Optional[T]] is [option T].
    - a function that mutates module state or may raise takes the state and
      returns the new state with an [outcome]. *)

From stdpp Require Import base option list sorting strings gmap fin_maps.
From Stdlib Require Import Ascii.


(** ** Characters and text *)

Module text.

(** The two characters that a Rocq string literal cannot hold directly. *)
Definition dquote : ascii := "034"%char.
Definition newline : ascii := "010"%char.

Definition nl : string := String newline "".
Definition quoted (s : string) : string := String dquote (s +:+ String dquote "").

(** [startswith p s] is Python's [s.startswith(p)]. *)
Fixpoint startswith (p s : string) : bool :=
  match p, s with
  | EmptyString, _ => true
  | String _ _, EmptyString => false
  | String a p', String b s' => if Ascii.eqb a b then startswith p' s' else false
  end.

(** [contains p s] is Python's [p in s] on [str]. *)
Fixpoint contains (p s : string) : bool :=
  startswith p s ||
  match s with
  | EmptyString => false
  | String _ s' => contains p s'
  end.

(** The relation that [contains] decides. *)
Definition substring_of (p s : string) : Prop :=
  exists pre post, s = pre +:+ p +:+ post.

(** [str.lower] on the ASCII letters. *)
Definition lower_ascii (c : ascii) : ascii :=
  let n := nat_of_ascii c in
  if (65 <=? n)%nat && (n <=? 90)%nat then ascii_of_nat (n + 32) else c.

Fixpoint lower (s : string) : string :=
  match s with
  | EmptyString => EmptyString
  | String c s' => String (lower_ascii c) (lower s')
  end.

Definition contains_nocase (p s : string) : bool :=
  contains (lower p) (lower s).

End text.

(** ** The records the rule reads *)

Module models.
(** [models.Context]: the rule only reads [project_id]. *)
Record Context := { project_id : string }.
End models.

Module gce.
(** [gce.Instance] exposes [id] and [name]. *)
Record Instance := { id : string; name : string }.
End gce.

Module logs.
(** [logs.LogEntryShort]: one serial console line. *)
Record LogEntryShort := { timestamp_iso : string; text : string }.
End logs.

#[global] Instance Context_eq_dec : EqDecision models.Context.
Proof. solve_decision. Defined.
#[global] Instance Instance_eq_dec : EqDecision gce.Instance.
Proof. solve_decision. Defined.
#[global] Instance LogEntryShort_eq_dec : EqDecision logs.LogEntryShort.
Proof. solve_decision. Defined.

(** ** The rule's constants *)

(** [TIME_SYNC_ERROR_MESSAGES], in source order.  The eighth entry is a raw
    string: it holds a backslash before the apostrophe. *)
Definition TIME_SYNC_ERROR_MESSAGES : list string :=
  [ "time may be out of sync";
    "System clock is unsynchronized";
    "Time drift detected";
    "no servers can be used, system clock unsynchronized";
    "time reset";
    "System clock unsynchronized";
    "Time offset too large";
    "Can\'t synchronise: no selectable sources";
    "Clock skew detected";
    "Clock skew too great";
    "Could not receive latest log timestamp from server" ].

(** [filter_str] of [prepare_rule], character for character. *)
Definition filter_str : string :=
  "textPayload:(" +:+ text.nl +:+
  "    " +:+ text.quoted "time may be out of sync" +:+ " OR" +:+ text.nl +:+
  "    " +:+ text.quoted "System clock is unsynchronized" +:+ " OR" +:+ text.nl +:+
  "    " +:+ text.quoted "Time drift detected" +:+ " OR" +:+ text.nl +:+
  "    " +:+ text.quoted "no servers can be used" +:+ " OR" +:+ text.nl +:+
  "    " +:+ text.quoted "time reset" +:+ " OR" +:+ text.nl +:+
  "    " +:+ text.quoted "Time offset too large" +:+ " OR" +:+ text.nl +:+
  "    " +:+ text.quoted "Can't synchronise" +:+ " OR" +:+ text.nl +:+
  "    " +:+ text.quoted "Clock skew detected" +:+ " OR" +:+ text.nl +:+
  "    " +:+ text.quoted "Clock skew too great" +:+ " OR" +:+ text.nl +:+
  "    " +:+ text.quoted "Could not receive latest log timestamp" +:+ text.nl +:+
  "  )".

(** ** Pattern matching and the log source's filter *)

Module patterns.

(** Modelled from the spec: [PatternSet.matches] of the serial log search
    engine ([gcpdiag/lint/gce/utils.py], not among the sources).  A pattern
    is found in a line as a substring or as a regular expression.  The
    regular expressions modelled are those made of ordinary characters and
    of a backslash followed by a punctuation character, which stands for
    that character; [unescape] gives the text such an expression denotes
    and [None] for any other expression. *)
Definition is_meta (c : ascii) : bool :=
  bool_decide (c ∈ [".";"^";"$";"*";"+";"?";"{";"}";"[";"]";"|";"(";")"]%char).

Definition is_alnum (c : ascii) : bool :=
  let n := nat_of_ascii c in
  ((48 <=? n)%nat && (n <=? 57)%nat) ||
  ((65 <=? n)%nat && (n <=? 90)%nat) ||
  ((97 <=? n)%nat && (n <=? 122)%nat).

Fixpoint unescape (p : string) : option string :=
  match p with
  | EmptyString => Some EmptyString
  | String "\" EmptyString => None
  | String "\" (String c p') =>
      if is_alnum c then None else String c <$> unescape p'
  | String c p' =>
      if is_meta c then None else String c <$> unescape p'
  end.

Definition regex_search (p line : string) : bool :=
  match unescape p with
  | Some lit => text.contains lit line
  | None => false
  end.

Definition pattern_found (line p : string) : bool :=
  text.contains p line || regex_search p line.

Definition matches (search_strings : list string) (line : string) : bool :=
  existsb (pattern_found line) search_strings.

(** Modelled from the spec: the filter language of the log source (Cloud
    Logging, not among the sources).  [textPayload:("a" OR "b" ...)] keeps
    the lines that contain one of the quoted terms.  [quoted_terms] reads
    the terms off the expression. *)
Fixpoint quoted_terms_go (cur : option string) (s : string) : list string :=
  match s with
  | EmptyString => []
  | String c s' =>
      if Ascii.eqb c text.dquote then
        match cur with
        | None => quoted_terms_go (Some EmptyString) s'
        | Some t => String.rev t :: quoted_terms_go None s'
        end
      else
        match cur with
        | None => quoted_terms_go None s'
        | Some t => quoted_terms_go (Some (String c t)) s'
        end
  end.

Definition quoted_terms : string -> list string := quoted_terms_go None.

(** The reading of the filter the design document uses: the line contains
    one of the quoted terms. *)
Definition satisfies_filter (filter line : string) : bool :=
  existsb (fun t => text.contains t line) (quoted_terms filter).

(** The log source compares without regard to letter case. *)
Definition satisfies_filter_nocase (filter line : string) : bool :=
  existsb (fun t => text.contains_nocase t line) (quoted_terms filter).

End patterns.

(** ** Exceptions and outcomes *)

Inductive exn :=
| KeyError (key : string)
| ConfigurationError
| SourceUnavailableError
| FetchError.

Inductive outcome :=
| Returned
| Raised (e : exn).

(** ** Built-ins *)

Module builtins.

(** [dict.values()] of a dict kept in insertion order. *)
Definition dict_values {K V : Type} (d : list (K * V)) : list V := d.*2.

(** Truth value of a sized container: [not c] holds when it is empty. *)
Definition is_empty {A : Type} (l : list A) : bool :=
  match l with [] => true | _ :: _ => false end.

(** [sorted(l, key=key)] for string keys.  Python's sort is stable: among
    elements with equal keys the order of [l] is kept, which fixes the
    result; it is computed here by insertion from the right. *)
Fixpoint insert_sorted {A : Type} (key : A -> string) (x : A) (l : list A) : list A :=
  match l with
  | [] => [x]
  | y :: l' =>
      if String.leb (key x) (key y) then x :: y :: l'
      else y :: insert_sorted key x l'
  end.

Definition sorted {A : Type} (key : A -> string) (l : list A) : list A :=
  foldr (insert_sorted key) [] l.

(** The order [sorted] sorts by: [key a <= key b] on [str]. *)
Definition key_le {A : Type} (key : A -> string) (a b : A) : Prop :=
  String.le (key a) (key b).

End builtins.

(** ** The report interface *)

Module lint.

(** The calls of [LintReportRuleInterface] that the rule makes.  A report
    is the list of the calls received, oldest first. *)
Inductive ReportCall :=
| add_skipped (resource : option gce.Instance) (reason : string)
| add_failed (resource : gce.Instance) (reason : string)
| add_ok (resource : gce.Instance).

(** The instance a verdict is about; a skip is no verdict. *)
Definition verdict_of (c : ReportCall) : option gce.Instance :=
  match c with
  | add_skipped _ _ => None
  | add_failed r _ => Some r
  | add_ok r => Some r
  end.

(** The names of the instances the verdicts among the calls are about, in
    the order of the calls. *)
Definition verdict_names (calls : list ReportCall) : list string :=
  gce.name <$> omap verdict_of calls.

End lint.

#[global] Instance ReportCall_eq_dec : EqDecision lint.ReportCall.
Proof. solve_decision. Defined.

(** ** The cloud the rule runs against *)

(** What the API queries answer during one run; the rule does not change it.
    [get_instances] is a dict from instance id to instance, in the order the
    API lists it.  [serial_console_lines] is the log line source: the lines
    of all instances of the context in chronological order, each with the id
    of its instance, for the filter expression handed down. *)
Record Cloud := {
  is_serial_port_one_logs_available : models.Context -> bool;
  get_instances : models.Context -> list (string * gce.Instance);
  serial_console_lines :
    models.Context -> option string -> list (string * logs.LogEntryShort)
}.

(** ** The interface of the serial log search *)

(** The rule uses two operations of [utils.SerialOutputSearch]: construction
    from a context, the search strings and a filter, and [get_last_match].
    [S] is the search object and [E] the state the engine keeps behind it.
    Both operations may raise: construction gives the object or the
    exception, [get_last_match] gives the answer or the exception, with the
    engine as the call leaves it. *)
Class SerialSearchIndex (E S : Type) := {
  new_search : models.Context -> list string -> option string -> exn + S;
  get_last_match :
    Cloud -> S -> string -> E -> (exn + option logs.LogEntryShort) * E
}.

(** ** The serial log search engine *)

Module utils.

(** Modelled from the spec: the search object of
    [gcpdiag/lint/gce/utils.py], which is not among the sources: a
    SearchContext paired with a PatternSet (ordered patterns and an
    optional filter for the log source). *)
Record SerialOutputSearch := {
  context : models.Context;
  search_strings : list string;
  custom_filter : option string
}.

(** Modelled from the spec: the search result of one session: the lines
    the bulk fetch returned and, per instance queried so far, the most
    recent matching line or no match. *)
Record Session := {
  fetched : list (string * logs.LogEntryShort);
  results : gmap string (option logs.LogEntryShort)
}.

(** Modelled from the spec: the memoization cache, keyed by SearchContext
    and PatternSet.  [fetch_log] is a probe on the log line source: the
    keys of the bulk fetches issued, oldest first. *)
Record Engine := {
  cache : gmap (string * list string * option string) Session;
  fetch_log : list (string * list string * option string)
}.

Definition empty_engine : Engine := {| cache := ∅; fetch_log := [] |}.

Definition key (s : SerialOutputSearch) : string * list string * option string :=
  (models.project_id (context s), search_strings s, custom_filter s).

(** Modelled from the spec: construction fails with a configuration error
    on an empty pattern list. *)
Definition SerialOutputSearch_init (ctx : models.Context)
    (strings : list string) (filter : option string) : exn + SerialOutputSearch :=
  if builtins.is_empty strings then inl ConfigurationError
  else inr {| context := ctx; search_strings := strings; custom_filter := filter |}.

(** Modelled from the spec: of two matching lines the one with the greater
    timestamp is kept, the later one when the timestamps are equal. *)
Definition newer (best : option logs.LogEntryShort) (e : logs.LogEntryShort)
    : option logs.LogEntryShort :=
  match best with
  | None => Some e
  | Some b =>
      if String.leb (logs.timestamp_iso b) (logs.timestamp_iso e) then Some e
      else Some b
  end.

(** Modelled from the spec: the scan of the fetched lines for one
    instance. *)
Definition scan (strings : list string) (instance_id : string)
    (lines : list (string * logs.LogEntryShort)) : option logs.LogEntryShort :=
  foldl (fun best l =>
           if bool_decide (l.1 = instance_id)
              && patterns.matches strings (logs.text l.2)
           then newer best l.2 else best)
        None lines.

(** Modelled from the spec: the session of a search, fetched in bulk on
    the first query for its key and reused afterwards. *)
Definition session_of (cloud : Cloud) (s : SerialOutputSearch) (e : Engine)
    : Session * Engine :=
  match cache e !! key s with
  | Some ses => (ses, e)
  | None =>
      let ses := {| fetched := serial_console_lines cloud (context s) (custom_filter s);
                    results := ∅ |} in
      (ses, {| cache := <[key s := ses]> (cache e);
               fetch_log := fetch_log e ++ [key s] |})
  end.

(** Modelled from the spec: [get_last_match]: the memoized answer for an
    instance already resolved, else the scan result, which is memoized. *)
Definition get_last_match (cloud : Cloud) (s : SerialOutputSearch)
    (instance_id : string) (e : Engine) : option logs.LogEntryShort * Engine :=
  let '(ses, e1) := session_of cloud s e in
  match results ses !! instance_id with
  | Some r => (r, e1)
  | None =>
      let r := scan (search_strings s) instance_id (fetched ses) in
      let ses' := {| fetched := fetched ses;
                     results := <[instance_id := r]> (results ses) |} in
      (r, {| cache := <[key s := ses']> (cache e1); fetch_log := fetch_log e1 |})
  end.


End utils.

(** The log line source of [Cloud] always delivers, so [get_last_match] of
    this engine returns. *)
#[global] Instance utils_index : SerialSearchIndex utils.Engine utils.SerialOutputSearch := {
  new_search := utils.SerialOutputSearch_init;
  get_last_match := fun cloud s instance_id e =>
    let r := utils.get_last_match cloud s instance_id e in (inr r.1, r.2)
}.

(** ** The rule *)

(** The module state of the rule and what a run can be observed to do:
    [logs_by_project] is the module level dict, [engine] the state behind the
    search objects, [report] the calls the reporter received and [queried]
    the instance ids [get_last_match] was asked for, both oldest first. *)
Record State (E S : Type) := mkState {
  logs_by_project : gmap string S;
  engine : E;
  report : list lint.ReportCall;
  queried : list string
}.
Arguments mkState {E S}.
Arguments logs_by_project {E S}.
Arguments engine {E S}.
Arguments report {E S}.
Arguments queried {E S}.

Definition unavailable_notice : string := "serial port output is unavailable".
Definition no_instances_notice : string := "No instances found".

Definition remediation_hint : string :=
  "Verify that the instance can reach metadata.google.internal " +:+
  "and that NTP/Chrony services are properly configured.".

(** The message of a failed verdict. *)
Definition failed_message (instance : gce.Instance) (m : logs.LogEntryShort) : string :=
  "Time synchronization errors detected on instance " +:+ gce.name instance +:+ "." +:+ text.nl +:+
  logs.timestamp_iso m +:+ ": " +:+ text.quoted (logs.text m) +:+ text.nl +:+
  remediation_hint.

(** The branch on [match] in the loop body; a log entry is a plain object
    and counts as true, [None] as false. *)
Definition verdict (instance : gce.Instance) (m : option logs.LogEntryShort)
    : lint.ReportCall :=
  match m with
  | Some m => lint.add_failed instance (failed_message instance m)
  | None => lint.add_ok instance
  end.

(** What the loop of [run_rule] leaves behind: the reporter calls made and
    the instance ids queried, both oldest first, the engine, and how the loop
    ended. *)
Record Loop (E : Type) := mkLoop {
  loop_calls : list lint.ReportCall;
  loop_ids : list string;
  loop_engine : E;
  loop_outcome : outcome
}.
Arguments mkLoop {E}.
Arguments loop_calls {E}.
Arguments loop_ids {E}.
Arguments loop_engine {E}.
Arguments loop_outcome {E}.

Section Rule.

Context {E S : Type} `{!SerialSearchIndex E S}.
Variable cloud : Cloud.

(** [prepare_rule]: the search object is constructed, which may raise, and
    assigned to [logs_by_project[context.project_id]].  The object is only
    reachable through the dict, so the dict holds it by value. *)
Definition prepare_rule (context : models.Context) (st : State E S)
    : State E S * outcome :=
  match new_search context TIME_SYNC_ERROR_MESSAGES (Some filter_str) with
  | inl e => (st, Raised e)
  | inr search =>
      (mkState (<[models.project_id context := search]> (logs_by_project st))
               (engine st) (report st) (queried st),
       Returned)
  end.

(** The [for] loop of [run_rule] over the instances in the order given.
    The loop has no handler: an exception of [get_last_match] ends it at
    once, after the verdicts on the instances before, and is the outcome of
    the loop. *)
Fixpoint check_instances (search : S) (instances : list gce.Instance) (e : E)
    : Loop E :=
  match instances with
  | [] => mkLoop [] [] e Returned
  | instance :: rest =>
      match get_last_match cloud search (gce.id instance) e with
      | (inl err, e1) => mkLoop [] [gce.id instance] e1 (Raised err)
      | (inr m, e1) =>
          let r := check_instances search rest e1 in
          mkLoop (verdict instance m :: loop_calls r)
                 (gce.id instance :: loop_ids r)
                 (loop_engine r) (loop_outcome r)
      end
  end.

(** [run_rule]: the availability guard, the lookup of the search, which
    raises [KeyError] on a project without entry, the guard on an empty
    instance list, and the loop over the instances sorted by name, whose
    outcome is the outcome of the run. *)
Definition run_rule (context : models.Context) (st : State E S)
    : State E S * outcome :=
  if negb (is_serial_port_one_logs_available cloud context) then
    (mkState (logs_by_project st) (engine st)
             (report st ++ [lint.add_skipped None unavailable_notice])
             (queried st),
     Returned)
  else
    match logs_by_project st !! models.project_id context with
    | None => (st, Raised (KeyError (models.project_id context)))
    | Some search =>
        let instances := builtins.dict_values (get_instances cloud context) in
        if builtins.is_empty instances then
          (mkState (logs_by_project st) (engine st)
                   (report st ++ [lint.add_skipped None no_instances_notice])
                   (queried st),
           Returned)
        else
          let r :=
            check_instances search (builtins.sorted gce.name instances) (engine st) in
          (mkState (logs_by_project st) (loop_engine r)
                   (report st ++ loop_calls r) (queried st ++ loop_ids r),
           loop_outcome r)
    end.

(** The engine after [get_last_match] was asked for the ids in turn. *)
Definition engine_after (search : S) (ids : list string) (e : E) : E :=
  foldl (fun e i => (get_last_match cloud search i e).2) e ids.


End Rule.

(** ** Lint runs *)

(** The module as loaded: [logs_by_project = {}], an engine that has fetched
    nothing, an empty report. *)
Definition initial_state : State utils.Engine utils.SerialOutputSearch :=
  mkState ∅ utils.empty_engine [] [].




(** The calls the framework makes on the rule itself, for any search
    engine: [prepare_rule] or [run_rule] for a context, whatever they
    return. *)
Inductive RuleCall :=
| CallPrepare (context : models.Context)
| CallRun (context : models.Context).

Definition rule_call {E S : Type} `{!SerialSearchIndex E S} (cloud : Cloud)
    (st : State E S) (c : RuleCall) : State E S :=
  match c with
  | CallPrepare context => (prepare_rule context st).1
  | CallRun context => (run_rule cloud context st).1
  end.

(** ** Concrete runs *)

Module fixtures.

(** A stub log line source that honours the filter handed down. *)
Definition stub_source (lines : list (string * logs.LogEntryShort))
    (_ : models.Context) (filter : option string)
    : list (string * logs.LogEntryShort) :=
  match filter with
  | None => lines
  | Some f => List.filter (fun l => patterns.satisfies_filter f (logs.text l.2)) lines
  end.

Definition project : models.Context := {| models.project_id := "my-project" |}.

Definition vm_a : gce.Instance := {| gce.id := "1001"; gce.name := "vm-a" |}.
Definition vm_b : gce.Instance := {| gce.id := "1002"; gce.name := "vm-b" |}.
Definition vm_c : gce.Instance := {| gce.id := "1003"; gce.name := "vm-c" |}.

Definition unsynchronized : logs.LogEntryShort :=
  {| logs.timestamp_iso := "2025-01-01T00:00:00Z";
     logs.text := "System clock is unsynchronized" |}.
Definition booted : logs.LogEntryShort :=
  {| logs.timestamp_iso := "2025-01-01T00:00:01Z";
     logs.text := "Started Network Time Synchronization." |}.
Definition chrony_unsynchronized : logs.LogEntryShort :=
  {| logs.timestamp_iso := "2025-01-01T00:00:02Z";
     logs.text := "chronyd[512]: System clock unsynchronized" |}.

Definition serial_lines : list (string * logs.LogEntryShort) :=
  [ ("1002", unsynchronized); ("1001", booted); ("1003", chrony_unsynchronized) ].

(** Three instances, listed by the API in the order b, c, a. *)
Definition cloud : Cloud := {|
  is_serial_port_one_logs_available := fun _ => true;
  get_instances := fun _ => [ ("1002", vm_b); ("1003", vm_c); ("1001", vm_a) ];
  serial_console_lines := stub_source serial_lines
|}.

(** The same instances listed in another order. *)
Definition cloud_reordered : Cloud := {|
  is_serial_port_one_logs_available := fun _ => true;
  get_instances := fun _ => [ ("1001", vm_a); ("1002", vm_b); ("1003", vm_c) ];
  serial_console_lines := stub_source serial_lines
|}.

(** A project without instances whose serial logs are available. *)
Definition cloud_empty : Cloud := {|
  is_serial_port_one_logs_available := fun _ => true;
  get_instances := fun _ => [];
  serial_console_lines := stub_source []
|}.

(** A project without instances whose serial logs are unavailable. *)
Definition cloud_unavailable : Cloud := {|
  is_serial_port_one_logs_available := fun _ => false;
  get_instances := fun _ => [];
  serial_console_lines := stub_source []
|}.

(** The state once [prepare_rule] ran for the project. *)
Definition prepared : State utils.Engine utils.SerialOutputSearch :=
  (prepare_rule project initial_state).1.

(** The search object [prepare_rule] registers for the project. *)
Definition search : utils.SerialOutputSearch :=
  {| utils.context := project;
     utils.search_strings := TIME_SYNC_ERROR_MESSAGES;
     utils.custom_filter := Some filter_str |}.

(** Another project of the same lint run. *)
Definition other_project : models.Context := {| models.project_id := "other-project" |}.

(** Two instances of the same name in different zones, and a third. *)
Definition vm_a_west : gce.Instance := {| gce.id := "2001"; gce.name := "vm-a" |}.

Definition cloud_twins : Cloud := {|
  is_serial_port_one_logs_available := fun _ => true;
  get_instances := fun _ => [ ("1002", vm_b); ("2001", vm_a_west); ("1001", vm_a) ];
  serial_console_lines := stub_source serial_lines
|}.

(** The twins listed the other way round. *)
Definition cloud_twins_reordered : Cloud := {|
  is_serial_port_one_logs_available := fun _ => true;
  get_instances := fun _ => [ ("1002", vm_b); ("1001", vm_a); ("2001", vm_a_west) ];
  serial_console_lines := stub_source serial_lines
|}.

(** Modelled from the spec: a search whose logs cannot be retrieved for
    some instances (sections 4.2 and 7: [get_last_match] fails with
    FetchError on a failure of the API).  The query for an instance id in
    [failing] raises, any other query finds no match; the engine counts the
    queries. *)
Record FailingSearch := { failing : list string }.

#[global] Instance failing_index : SerialSearchIndex nat FailingSearch := {
  new_search := fun _ _ _ => inr {| failing := ["1002"] |};
  get_last_match := fun _ s instance_id n =>
    (if bool_decide (instance_id ∈ failing s) then inl FetchError else inr None,
     Datatypes.S n)
}.

(** The state once [prepare_rule] ran for the project with that search. *)
Definition prepared_failing : State nat FailingSearch :=
  (prepare_rule project (mkState ∅ 0 [] [])).1.

(** Instances in scope while the serial port logs are unavailable. *)
Definition cloud_logs_off : Cloud := {|
  is_serial_port_one_logs_available := fun _ => false;
  get_instances := fun _ => [ ("1002", vm_b); ("1001", vm_a) ];
  serial_console_lines := stub_source serial_lines
|}.

End fixtures.

(** * Properties *)

(** ** Text *)

Section TextFacts.

Import text.

Lemma append_cons a s t : String a s +:+ t = String a (s +:+ t).
Proof. reflexivity. Qed.



Lemma append_assoc s t u : (s +:+ t) +:+ u = s +:+ t +:+ u.
Proof. induction s as [|a s IH]; [done|]. by rewrite !append_cons, IH. Qed.

Lemma startswith_spec p s : startswith p s = true <-> exists post, s = p +:+ post.
Proof.
  revert s. induction p as [|a p IH]; intros s; simpl.
  - split; [intros _; by exists s | done].
  - destruct s as [|b s].
    + split; [done | intros [post Hpost]; discriminate Hpost].
    + destruct (Ascii.eqb_spec a b) as [->|Hab].
      * rewrite IH. split; intros [post Hpost]; exists post.
        -- by rewrite append_cons, <- Hpost.
        -- rewrite append_cons in Hpost. by simplify_eq.
      * split; [done|]. intros [post Hpost].
        rewrite append_cons in Hpost. by simplify_eq.
Qed.

Lemma contains_spec p s : contains p s = true <-> substring_of p s.
Proof.
  induction s as [|a s IH]; simpl.
  - rewrite orb_false_r, startswith_spec. split.
    + intros [post Hpost]. by exists "", post.
    + intros ([|c pre] & post & Hs); [by exists post | discriminate Hs].
  - rewrite orb_true_iff, startswith_spec, IH. split.
    + intros [[post Hpost]|(pre & post & Hs)].
      * by exists "", post.
      * exists (String a pre), post. by rewrite append_cons, <- Hs.
    + intros ([|c pre] & post & Hs).
      * left. by exists post.
      * right. exists pre, post. rewrite append_cons in Hs. by simplify_eq.
Qed.


Lemma substring_of_trans p q s :
  substring_of p q -> substring_of q s -> substring_of p s.
Proof.
  intros (a & b & ->) (c & d & ->).
  exists (c +:+ a), (b +:+ d). by rewrite !append_assoc.
Qed.



Lemma contains_trans p q s :
  contains p q = true -> contains q s = true -> contains p s = true.
Proof. rewrite !contains_spec. apply substring_of_trans. Qed.

End TextFacts.

(** ** Sorting *)

Section SortedFacts.

Import builtins.
Context {A : Type} (key : A -> string).

#[local] Instance key_le_trans : Transitive (key_le key).
Proof. intros a b c. unfold key_le. apply transitivity. Qed.

Lemma leb_false_le s t : String.leb s t = false -> String.le t s.
Proof.
  intros H. destruct (total String.le s t) as [Hst|Hts]; [|done].
  unfold String.le in Hst. rewrite H in Hst. done.
Qed.

Lemma insert_sorted_Permutation x l : insert_sorted key x l ≡ₚ x :: l.
Proof.
  induction l as [|y l IH]; simpl; [done|].
  destruct (String.leb (key x) (key y)); [done|].
  rewrite IH. apply Permutation_swap.
Qed.

Lemma sorted_Permutation l : sorted key l ≡ₚ l.
Proof.
  induction l as [|x l IH]; simpl; [done|].
  unfold sorted in IH. by rewrite insert_sorted_Permutation, IH.
Qed.

Lemma sorted_length l : length (sorted key l) = length l.
Proof. apply Permutation_length, sorted_Permutation. Qed.

Lemma sorted_nil_inv l : sorted key l = [] -> l = [].
Proof.
  intros H. apply Permutation_nil_r. rewrite <- H.
  symmetry. apply sorted_Permutation.
Qed.

Lemma insert_sorted_HdRel a x l :
  key_le key a x -> HdRel (key_le key) a l -> HdRel (key_le key) a (insert_sorted key x l).
Proof.
  intros Hax Hal. destruct l as [|y l]; simpl; [by constructor|].
  destruct (String.leb (key x) (key y)); constructor; [done|].
  by inv Hal.
Qed.

Lemma insert_sorted_Sorted x l :
  Sorted (key_le key) l -> Sorted (key_le key) (insert_sorted key x l).
Proof.
  induction 1 as [|y l Hl IH Hy]; simpl; [by repeat constructor|].
  destruct (String.leb (key x) (key y)) eqn:Hxy.
  - constructor; [by constructor|]. constructor.
    unfold key_le, String.le. by rewrite Hxy.
  - constructor; [done|].
    apply insert_sorted_HdRel; [|done]. by apply leb_false_le.
Qed.

Lemma sorted_Sorted l : Sorted (key_le key) (sorted key l).
Proof.
  induction l as [|x l IH]; simpl; [constructor|].
  by apply insert_sorted_Sorted.
Qed.

Lemma sorted_keys_ascending l : StronglySorted String.le (key <$> sorted key l).
Proof.
  apply StronglySorted_fmap with (R1 := key_le key).
  - intros a b Hab. exact Hab.
  - apply Sorted_StronglySorted; first [apply key_le_trans | apply sorted_Sorted].
Qed.

(** The sequence of keys of the result depends on the elements only, not
    on the order they are given in. *)
Lemma sorted_keys_Permutation l1 l2 :
  l1 ≡ₚ l2 -> key <$> sorted key l1 = key <$> sorted key l2.
Proof.
  intros H. apply (StronglySorted_unique String.le);
    [apply sorted_keys_ascending..|].
  by rewrite !sorted_Permutation, H.
Qed.

(** Stability: elements with the same key keep the order of the input. *)
Lemma insert_sorted_stable k x l :
  List.filter (fun a => bool_decide (key a = k)) (insert_sorted key x l) =
  List.filter (fun a => bool_decide (key a = k)) (x :: l).
Proof.
  induction l as [|y l IH]; simpl; [done|].
  destruct (String.leb (key x) (key y)) eqn:Hxy; simpl; [done|].
  rewrite IH. simpl.
  repeat case_bool_decide; simplify_eq; try done.
  assert (String.le (key x) (key y)) as Hle by (by replace (key y) with (key x)).
  unfold String.le in Hle. by rewrite Hxy in Hle.
Qed.

Lemma sorted_stable k l :
  List.filter (fun a => bool_decide (key a = k)) (sorted key l) =
  List.filter (fun a => bool_decide (key a = k)) l.
Proof.
  induction l as [|x l IH]; simpl; [done|].
  fold (sorted key l). rewrite insert_sorted_stable. simpl. by rewrite IH.
Qed.

End SortedFacts.

(** ** The loop of [run_rule] *)

Section RuleFacts.

Context {E S : Type} `{!SerialSearchIndex E S}.
Variable cloud : Cloud.

Lemma verdict_of_verdict instance m : lint.verdict_of (verdict instance m) = Some instance.
Proof. by destruct m. Qed.

Lemma engine_after_cons (search : S) i ids (e : E) :
  engine_after cloud search (i :: ids) e =
  engine_after cloud search ids (get_last_match cloud search i e).2.
Proof. reflexivity. Qed.

Lemma check_instances_cons (search : S) instance rest (e : E) :
  check_instances cloud search (instance :: rest) e =
  match (get_last_match cloud search (gce.id instance) e).1 with
  | inl err =>
      mkLoop [] [gce.id instance]
             (get_last_match cloud search (gce.id instance) e).2 (Raised err)
  | inr m =>
      let r := check_instances cloud search rest
                 (get_last_match cloud search (gce.id instance) e).2 in
      mkLoop (verdict instance m :: loop_calls r) (gce.id instance :: loop_ids r)
             (loop_engine r) (loop_outcome r)
  end.
Proof. simpl. by destruct (get_last_match _ _ _ _) as [[err|m] e1]. Qed.

(** Induction over the loop: the empty list, a query that raises, a query
    that returns. *)
Ltac loop_induction l e :=
  revert e; induction l as [|i l IH]; intros e;
  [ | rewrite check_instances_cons;
      try rewrite engine_after_cons;
      destruct (get_last_match cloud _ (gce.id i) e) as [[err|m] e1];
      cbn [fst snd loop_calls loop_ids loop_engine loop_outcome] ].

(** The engine after the loop is the engine after the queries it made. *)
Lemma check_instances_engine (search : S) l (e : E) :
  loop_engine (check_instances cloud search l e) =
  engine_after cloud search (loop_ids (check_instances cloud search l e)) e.
Proof.
  revert e. induction l as [|i l IH]; intros e; [done|].
  rewrite check_instances_cons.
  destruct (get_last_match cloud search (gce.id i) e) as [[err|m] e1] eqn:Hq;
    cbn [fst snd loop_engine loop_ids].
  - by rewrite engine_after_cons, Hq.
  - rewrite engine_after_cons, Hq. apply IH.
Qed.

(** The loop queries the instances in order, up to the first query that
    raises. *)
Lemma check_instances_ids_prefix (search : S) l (e : E) :
  loop_ids (check_instances cloud search l e) `prefix_of` gce.id <$> l.
Proof.
  loop_induction l e.
  - done.
  - csimpl. apply prefix_cons, prefix_nil.
  - csimpl. apply prefix_cons, IH.
Qed.

(** The verdicts are about the instances in order, up to the first query
    that raises. *)
Lemma check_instances_omap_prefix (search : S) l (e : E) :
  omap lint.verdict_of (loop_calls (check_instances cloud search l e)) `prefix_of` l.
Proof.
  loop_induction l e.
  - done.
  - apply prefix_nil.
  - csimpl. rewrite verdict_of_verdict. apply prefix_cons, IH.
Qed.

(** A loop that returns has reported on every instance and queried each. *)
Lemma check_instances_returned (search : S) l (e : E) :
  loop_outcome (check_instances cloud search l e) = Returned ->
  omap lint.verdict_of (loop_calls (check_instances cloud search l e)) = l /\
  length (loop_calls (check_instances cloud search l e)) = length l /\
  loop_ids (check_instances cloud search l e) = gce.id <$> l.
Proof.
  loop_induction l e.
  - done.
  - done.
  - intros Hret. destruct (IH _ Hret) as (Hcalls & Hlength & Hids).
    csimpl. by rewrite verdict_of_verdict, Hcalls, Hlength, Hids.
Qed.

Lemma check_instances_length_le (search : S) l (e : E) :
  length (loop_calls (check_instances cloud search l e)) <= length l.
Proof.
  loop_induction l e.
  - done.
  - simpl. lia.
  - specialize (IH e1). simpl. lia.
Qed.

Lemma check_instances_verdicts (search : S) l (e : E) :
  Forall (fun c => is_Some (lint.verdict_of c))
         (loop_calls (check_instances cloud search l e)).
Proof.
  loop_induction l e.
  - constructor.
  - constructor.
  - constructor; [|apply IH]. rewrite verdict_of_verdict. by eexists.
Qed.

Lemma check_instances_Forall2 (search : S) l (e : E) :
  Forall2 (fun i c => c = lint.add_ok i \/
                      exists m, c = lint.add_failed i (failed_message i m))
          (omap lint.verdict_of (loop_calls (check_instances cloud search l e)))
          (loop_calls (check_instances cloud search l e)).
Proof.
  loop_induction l e.
  - constructor.
  - constructor.
  - csimpl. rewrite verdict_of_verdict. constructor; [|apply IH].
    destruct m as [m|]; simpl; eauto.
Qed.

Lemma check_instances_elem_of (search : S) l (e : E) c :
  c ∈ loop_calls (check_instances cloud search l e) ->
  exists i m, i ∈ l /\ c = verdict i m.
Proof.
  loop_induction l e.
  - intros Hc. by apply elem_of_nil in Hc.
  - intros Hc. by apply elem_of_nil in Hc.
  - intros [->|Hc]%elem_of_cons.
    + eexists _, _. split; [by left | done].
    + destruct (IH _ Hc) as (j & m' & Hj & ->).
      eexists _, _. split; [by right | done].
Qed.


Lemma check_instances_ext (cloud' : Cloud) (search : S) l (e : E) :
  (forall s i e, get_last_match cloud' s i e = get_last_match cloud s i e) ->
  check_instances cloud' search l e = check_instances cloud search l e.
Proof.
  intros Hsame. revert e. induction l as [|i l IH]; intros e; [done|].
  simpl. rewrite Hsame.
  destruct (get_last_match cloud search (gce.id i) e) as [[err|m] e1]; [done|].
  by rewrite IH.
Qed.

(** [run_rule] when it reaches the loop. *)
Lemma run_rule_loop context (st : State E S) search :
  is_serial_port_one_logs_available cloud context = true ->
  logs_by_project st !! models.project_id context = Some search ->
  builtins.dict_values (get_instances cloud context) <> [] ->
  run_rule cloud context st =
  let r := check_instances cloud search
             (builtins.sorted gce.name (builtins.dict_values (get_instances cloud context)))
             (engine st) in
  (mkState (logs_by_project st) (loop_engine r)
           (report st ++ loop_calls r) (queried st ++ loop_ids r),
   loop_outcome r).
Proof.
  intros Havail Hsearch Hne. unfold run_rule. rewrite Havail, Hsearch. simpl.
  by destruct (builtins.dict_values (get_instances cloud context)) as [|i l] eqn:Hl.
Qed.

(** The four ways through [run_rule]. *)
Lemma run_rule_cases context (st : State E S) :
  (is_serial_port_one_logs_available cloud context = false /\
   run_rule cloud context st =
     (mkState (logs_by_project st) (engine st)
              (report st ++ [lint.add_skipped None unavailable_notice]) (queried st),
      Returned)) \/
  (is_serial_port_one_logs_available cloud context = true /\
   logs_by_project st !! models.project_id context = None /\
   run_rule cloud context st = (st, Raised (KeyError (models.project_id context)))) \/
  (exists search,
     is_serial_port_one_logs_available cloud context = true /\
     logs_by_project st !! models.project_id context = Some search /\
     builtins.dict_values (get_instances cloud context) = [] /\
     run_rule cloud context st =
       (mkState (logs_by_project st) (engine st)
                (report st ++ [lint.add_skipped None no_instances_notice]) (queried st),
        Returned)) \/
  (exists search r,
     is_serial_port_one_logs_available cloud context = true /\
     logs_by_project st !! models.project_id context = Some search /\
     builtins.dict_values (get_instances cloud context) <> [] /\
     r = check_instances cloud search
           (builtins.sorted gce.name (builtins.dict_values (get_instances cloud context)))
           (engine st) /\
     run_rule cloud context st =
       (mkState (logs_by_project st) (loop_engine r)
                (report st ++ loop_calls r) (queried st ++ loop_ids r),
        loop_outcome r)).
Proof.
  destruct (is_serial_port_one_logs_available cloud context) eqn:Havail.
  - destruct (logs_by_project st !! models.project_id context) as [search|] eqn:Hsearch.
    + destruct (builtins.dict_values (get_instances cloud context)) as [|i l] eqn:Hl.
      * right. right. left. exists search. repeat split; try done.
        unfold run_rule. by rewrite Havail, Hsearch, Hl.
      * right. right. right. eexists search, _. repeat split; try done.
        rewrite <- Hl. apply (run_rule_loop context st search Havail Hsearch).
        by rewrite Hl.
    + right. left. repeat split; try done.
      unfold run_rule. by rewrite Havail, Hsearch.
  - left. split; [done|]. unfold run_rule. by rewrite Havail.
Qed.

Lemma run_rule_logs_by_project context (st : State E S) :
  logs_by_project (run_rule cloud context st).1 = logs_by_project st.
Proof.
  destruct (run_rule_cases context st)
    as [[_ ->]|[(_ & _ & ->)|[(search & _ & _ & _ & ->)|(search & r & _ & _ & _ & _ & ->)]]];
    done.
Qed.

End RuleFacts.

(** ** The message of a failed verdict *)

Section MessageFacts.

Import text.





End MessageFacts.

(** ** Counting verdicts *)

Lemma verdict_filter_nil (calls : list lint.ReportCall) i :
  i ∉ omap lint.verdict_of calls ->
  filter (fun c => lint.verdict_of c = Some i) calls = [].
Proof.
  induction calls as [|c calls IH]; csimpl; [done|]. intros Hi.
  rewrite filter_cons. destruct (lint.verdict_of c) as [j|] eqn:Hc.
  - apply not_elem_of_cons in Hi as [Hij Hi].
    case_decide; [by simplify_eq | by apply IH].
  - case_decide; [done | by apply IH].
Qed.

Lemma verdict_count_once (calls : list lint.ReportCall) i :
  NoDup (omap lint.verdict_of calls) -> i ∈ omap lint.verdict_of calls ->
  length (filter (fun c => lint.verdict_of c = Some i) calls) = 1.
Proof.
  induction calls as [|c calls IH]; csimpl.
  { intros _ Hi. by apply elem_of_nil in Hi. }
  rewrite filter_cons. destruct (lint.verdict_of c) as [j|] eqn:Hc.
  - intros [Hnotin Hnd]%NoDup_cons Hi. case_decide as Hj.
    + simplify_eq. simpl. by rewrite verdict_filter_nil.
    + apply elem_of_cons in Hi as [->|Hi]; [done | by apply IH].
  - intros Hnd Hi. case_decide; [done | by apply IH].
Qed.

(** ** Sorting by distinct keys, and runs on two listings *)

Lemma NoDup_fmap_eq {A B} (f : A -> B) (l : list A) x y :
  NoDup (f <$> l) -> x ∈ l -> y ∈ l -> f x = f y -> x = y.
Proof.
  induction l as [|a l IH]; csimpl.
  { intros _ Hx. by apply elem_of_nil in Hx. }
  intros [Ha Hnd]%NoDup_cons [->|Hx]%elem_of_cons [->|Hy]%elem_of_cons Hxy; try done.
  - exfalso. apply Ha. rewrite Hxy. by apply list_elem_of_fmap_2.
  - exfalso. apply Ha. rewrite <- Hxy. by apply list_elem_of_fmap_2.
  - by apply IH.
Qed.

(** With distinct keys the result of [sorted] depends on the elements only. *)
Lemma sorted_Permutation_distinct {A} (key : A -> string) (l1 l2 : list A) :
  l1 ≡ₚ l2 -> NoDup (key <$> l2) ->
  builtins.sorted key l1 = builtins.sorted key l2.
Proof.
  intros Hperm Hnd.
  apply (StronglySorted_unique_strong (builtins.key_le key)).
  - intros x1 x2 Hx1 Hx2 H12 H21.
    rewrite sorted_Permutation in Hx1, Hx2. rewrite Hperm in Hx1.
    apply (NoDup_fmap_eq key l2); [done..|].
    unfold builtins.key_le in *. by apply (anti_symm String.le).
  - apply Sorted_StronglySorted; first [apply key_le_trans | apply sorted_Sorted].
  - apply Sorted_StronglySorted; first [apply key_le_trans | apply sorted_Sorted].
  - by rewrite !sorted_Permutation.
Qed.

Lemma sorted_not_nil {A} (key : A -> string) (l : list A) :
  l <> [] -> builtins.sorted key l <> [].
Proof. intros Hl Hnil. by apply Hl, (sorted_nil_inv key). Qed.

Lemma prefix_filter {A} (P : A -> Prop) `{!forall x, Decision (P x)} (l1 l2 : list A) :
  l1 `prefix_of` l2 -> filter P l1 `prefix_of` filter P l2.
Proof. intros [k ->]. rewrite filter_app. by eexists. Qed.

Lemma filter_bool_decide {A} (P : A -> Prop) `{!forall x, Decision (P x)} (l : list A) :
  List.filter (fun a => bool_decide (P a)) l = filter P l.
Proof.
  induction l as [|a l IH]; [done|]. rewrite filter_cons. simpl. rewrite IH.
  case_bool_decide; by case_decide.
Qed.

Section TwoListings.

Context {E S : Type} `{!SerialSearchIndex E S}.

(** Two clouds that list the same instances, of distinct names, in different
    orders and agree otherwise give the same run. *)
Lemma run_rule_same_instances (cloud cloud' : Cloud) context (st : State E S) :
  is_serial_port_one_logs_available cloud' context
    = is_serial_port_one_logs_available cloud context ->
  builtins.dict_values (get_instances cloud' context) ≡ₚ
    builtins.dict_values (get_instances cloud context) ->
  NoDup (gce.name <$> builtins.dict_values (get_instances cloud context)) ->
  (forall s i e, get_last_match cloud' s i e = get_last_match cloud s i e) ->
  run_rule cloud' context st = run_rule cloud context st.
Proof.
  intros Havail Hperm Hnd Hsame. unfold run_rule. rewrite Havail.
  destruct (is_serial_port_one_logs_available cloud context); simpl; [|done].
  destruct (logs_by_project st !! models.project_id context) as [search|]; [|done].
  rewrite (sorted_Permutation_distinct gce.name _ _ Hperm Hnd).
  rewrite (check_instances_ext cloud cloud' search _ _ Hsame).
  destruct (builtins.dict_values (get_instances cloud context)) as [|i l].
  - apply Permutation_nil_r in Hperm. by rewrite Hperm.
  - destruct (builtins.dict_values (get_instances cloud' context)) as [|i' l'];
      [|done].
    symmetry in Hperm. by apply Permutation_nil_r in Hperm.
Qed.

End TwoListings.

(** * Properties of the rule *)

Section RuleClaims.

Context {E S : Type} `{!SerialSearchIndex E S}.
Variable cloud : Cloud.

(** C5: when the serial port logs of the context are unavailable,
    [run_rule] makes exactly one reporter call, a skip without an
    instance, and nothing else: no verdict is reported, [get_last_match]
    is not asked for any instance and the engine and the registered
    searches stay as they were. *)
Theorem run_rule_unavailable_single_skip context (st : State E S) :
  is_serial_port_one_logs_available cloud context = false ->
  run_rule cloud context st =
    (mkState (logs_by_project st) (engine st)
             (report st ++ [lint.add_skipped None unavailable_notice])
             (queried st),
     Returned).
Proof. intros Havail. unfold run_rule. by rewrite Havail. Qed.

(** C2, as amended: with no instance in scope and a search registered for
    the project, [run_rule] reports exactly one skip; its message is the
    no-instances notice when the serial port logs are available and the
    unavailability notice when they are not. *)
Theorem run_rule_zero_instances context (st : State E S) search :
  builtins.dict_values (get_instances cloud context) = [] ->
  logs_by_project st !! models.project_id context = Some search ->
  run_rule cloud context st =
    (mkState (logs_by_project st) (engine st)
             (report st ++
                [lint.add_skipped None
                   (if is_serial_port_one_logs_available cloud context
                    then no_instances_notice else unavailable_notice)])
             (queried st),
     Returned).
Proof.
  intros Hnone Hsearch. unfold run_rule.
  destruct (is_serial_port_one_logs_available cloud context); simpl; [|done].
  by rewrite Hsearch, Hnone.
Qed.

(** C10: when the serial port logs are available and no search is
    registered for the project, [run_rule] raises [KeyError] for the
    project id with the state untouched, so before any reporter call and
    before any query. *)
Theorem run_rule_unprepared_KeyError context (st : State E S) :
  is_serial_port_one_logs_available cloud context = true ->
  logs_by_project st !! models.project_id context = None ->
  run_rule cloud context st = (st, Raised (KeyError (models.project_id context))).
Proof. intros Havail Hnone. unfold run_rule. by rewrite Havail, Hnone. Qed.


(** C6, as amended: in a run that reaches the loop and returns, the reporter
    receives one call per instance in scope, [add_ok] or [add_failed] for
    that instance; an instance in scope is the subject of exactly one of the
    calls, and [get_last_match] is asked once per call, in the same order. *)
Theorem run_rule_one_verdict_per_instance context (st : State E S) search :
  is_serial_port_one_logs_available cloud context = true ->
  logs_by_project st !! models.project_id context = Some search ->
  builtins.dict_values (get_instances cloud context) <> [] ->
  (run_rule cloud context st).2 = Returned ->
  exists calls : list lint.ReportCall,
    report (run_rule cloud context st).1 = report st ++ calls /\
    omap lint.verdict_of calls ≡ₚ builtins.dict_values (get_instances cloud context) /\
    Forall2 (fun i c => c = lint.add_ok i \/
                        exists m, c = lint.add_failed i (failed_message i m))
            (omap lint.verdict_of calls) calls /\
    (forall i,
       NoDup (builtins.dict_values (get_instances cloud context)) ->
       i ∈ builtins.dict_values (get_instances cloud context) ->
       length (filter (fun c => lint.verdict_of c = Some i) calls) = 1) /\
    queried (run_rule cloud context st).1 =
      queried st ++ (gce.id <$> omap lint.verdict_of calls).
Proof.
  intros Havail Hsearch Hne.
  rewrite (run_rule_loop cloud context st search Havail Hsearch Hne). simpl.
  set (l := builtins.sorted gce.name _). intros Hret.
  destruct (check_instances_returned cloud search l (engine st) Hret)
    as (Hcalls & _ & Hids).
  exists (loop_calls (check_instances cloud search l (engine st))).
  assert (l ≡ₚ builtins.dict_values (get_instances cloud context)) as Hperm
    by apply sorted_Permutation.
  split; [done|]. split; [by rewrite Hcalls|].
  split; [apply check_instances_Forall2|]. split; [|by rewrite Hcalls, Hids].
  intros i Hnd Hi. apply verdict_count_once; rewrite Hcalls.
  - by rewrite Hperm.
  - by rewrite Hperm.
Qed.

(** C7, as amended: in a run for a project with a registered search the
    verdicts are reported in ascending order of instance name: the
    instances of the calls are an initial part of the instances in scope
    sorted by name, all of them when the run returns.  When the names of the
    instances in scope are pairwise distinct, the run is the same for every
    listing of the same instances. *)
Theorem run_rule_verdicts_sorted_by_name context (st : State E S) search :
  is_serial_port_one_logs_available cloud context = true ->
  logs_by_project st !! models.project_id context = Some search ->
  exists calls : list lint.ReportCall,
    report (run_rule cloud context st).1 = report st ++ calls /\
    omap lint.verdict_of calls `prefix_of`
      builtins.sorted gce.name (builtins.dict_values (get_instances cloud context)) /\
    ((run_rule cloud context st).2 = Returned ->
     omap lint.verdict_of calls =
       builtins.sorted gce.name (builtins.dict_values (get_instances cloud context))) /\
    StronglySorted String.le (lint.verdict_names calls) /\
    (forall cloud' : Cloud,
       is_serial_port_one_logs_available cloud' context = true ->
       builtins.dict_values (get_instances cloud' context) ≡ₚ
         builtins.dict_values (get_instances cloud context) ->
       NoDup (gce.name <$> builtins.dict_values (get_instances cloud context)) ->
       (forall s i e, get_last_match cloud' s i e = get_last_match cloud s i e) ->
       run_rule cloud' context st = run_rule cloud context st).
Proof.
  intros Havail Hsearch.
  assert (exists calls : list lint.ReportCall,
    report (run_rule cloud context st).1 = report st ++ calls /\
    omap lint.verdict_of calls `prefix_of`
      builtins.sorted gce.name (builtins.dict_values (get_instances cloud context)) /\
    ((run_rule cloud context st).2 = Returned ->
     omap lint.verdict_of calls =
       builtins.sorted gce.name (builtins.dict_values (get_instances cloud context))))
    as (calls & Hreport & Hprefix & Hall).
  { destruct (run_rule_cases cloud context st)
      as [[Ha _]|[(_ & Hs & _)|[(s & _ & _ & Hl & ->)|(s & r & _ & Hs & _ & -> & ->)]]];
      try congruence; simpl.
    - eexists. split; [done|]. rewrite Hl. by split.
    - eexists. split; [done|]. split; [apply check_instances_omap_prefix|].
      intros Hret. by apply check_instances_returned. }
  exists calls. split; [done|]. split; [done|]. split; [done|]. split.
  - destruct Hprefix as [rest Hrest].
    pose proof (sorted_keys_ascending gce.name
                  (builtins.dict_values (get_instances cloud context))) as Hsorted.
    rewrite Hrest, fmap_app in Hsorted.
    by apply StronglySorted_app_1_l in Hsorted.
  - intros cloud' Havail' Hperm Hnd Hsame.
    apply run_rule_same_instances; [congruence | done..].
Qed.

(** C8: [prepare_rule] twice in succession gives the state and the outcome
    that [prepare_rule] once gives. *)
Theorem prepare_rule_idempotent context (st : State E S) :
  prepare_rule context (prepare_rule context st).1 = prepare_rule context st.
Proof.
  unfold prepare_rule.
  destruct (new_search context TIME_SYNC_ERROR_MESSAGES (Some filter_str))
    as [e|search] eqn:Hnew; simpl; [done|].
  by rewrite insert_insert_eq.
Qed.

End RuleClaims.

(** ** The engine *)

Section EngineFacts.

Import utils.
Variable cloud : Cloud.










End EngineFacts.

(** ** The engine during a lint run *)

Section RunFacts.

Context {E S : Type} `{!SerialSearchIndex E S}.
Variable cloud : Cloud.



End RunFacts.



(** * Properties of the engine *)



(** * The pre-filter *)

Lemma filter_str_terms :
  patterns.quoted_terms filter_str =
  [ "time may be out of sync"; "System clock is unsynchronized";
    "Time drift detected"; "no servers can be used"; "time reset";
    "Time offset too large"; "Can't synchronise"; "Clock skew detected";
    "Clock skew too great"; "Could not receive latest log timestamp" ].
Proof. vm_compute. reflexivity. Qed.

(** Every search string of the rule is a regular expression of the modelled
    kind. *)
Lemma search_strings_unescape :
  Forall (fun p => is_Some (patterns.unescape p)) TIME_SYNC_ERROR_MESSAGES.
Proof. repeat constructor; by eexists. Qed.

(** A line that contains a text that passes the filter passes the filter. *)
Lemma satisfies_filter_mono filter lit line :
  patterns.satisfies_filter filter lit = true ->
  text.contains lit line = true ->
  patterns.satisfies_filter filter line = true.
Proof.
  unfold patterns.satisfies_filter. rewrite !existsb_exists.
  intros (t & Hin & Ht) Hline. exists t. eauto using contains_trans.
Qed.

(** X9: what the filter gets right: a line in which a search string other
    than the sixth is found as a regular expression passes the filter. *)
Lemma prefilter_keeps_other_patterns line p :
  p ∈ TIME_SYNC_ERROR_MESSAGES ->
  p <> "System clock unsynchronized" ->
  patterns.regex_search p line = true ->
  patterns.satisfies_filter filter_str line = true.
Proof.
  intros Hin Hne Hfound. unfold TIME_SYNC_ERROR_MESSAGES in Hin.
  repeat (apply elem_of_cons in Hin as [->|Hin]); try done;
    try (by apply elem_of_nil in Hin);
    unfold patterns.regex_search in Hfound;
    match type of Hfound with
    | match ?u with _ => _ end = true =>
        let v := eval vm_compute in u in change u with v in Hfound
    end;
    (eapply satisfies_filter_mono; [|exact Hfound]);
    vm_compute; reflexivity.
Qed.

(** C1: the pre-filter excludes a line that the search strings match, the
    line [System clock unsynchronized].  The sixth search string is found in
    it, none of the ten quoted terms of
    [filter_str] occurs in it, with or without regard to letter case, and a
    log source that honours the filter withholds such a line: the instance
    that logged it is reported OK although the scan of the unfiltered lines
    finds the match. *)
Theorem prefilter_drops_matching_line :
  patterns.matches TIME_SYNC_ERROR_MESSAGES "System clock unsynchronized" = true /\
  patterns.satisfies_filter filter_str "System clock unsynchronized" = false /\
  patterns.satisfies_filter_nocase filter_str "System clock unsynchronized" = false /\
  utils.scan TIME_SYNC_ERROR_MESSAGES (gce.id fixtures.vm_c) fixtures.serial_lines
    = Some fixtures.chrony_unsynchronized /\
  report (run_rule fixtures.cloud fixtures.project fixtures.prepared).1 !! 2
    = Some (lint.add_ok fixtures.vm_c).
Proof. vm_compute. auto. Qed.

(** * Runs on concrete clouds *)

Lemma prepared_search :
  logs_by_project fixtures.prepared !! models.project_id fixtures.project
  = Some fixtures.search.
Proof. vm_compute. reflexivity. Defined.

Lemma run_rule_unavailable_single_skip_witness :
  builtins.dict_values (get_instances fixtures.cloud_logs_off fixtures.project)
    = [fixtures.vm_b; fixtures.vm_a] /\
  run_rule fixtures.cloud_logs_off fixtures.project fixtures.prepared =
    (mkState (logs_by_project fixtures.prepared) (engine fixtures.prepared)
             (report fixtures.prepared ++ [lint.add_skipped None unavailable_notice])
             (queried fixtures.prepared),
     Returned).
Proof.
  split; [reflexivity|].
  apply (run_rule_unavailable_single_skip
           fixtures.cloud_logs_off fixtures.project fixtures.prepared).
  reflexivity.
Defined.

(** With no instance in scope and the serial port logs unavailable the one
    skip carries the unavailability notice, not the no-instances notice; the
    skip reported for an empty project depends on the availability. *)
Lemma zero_instances_skip_depends_on_availability :
  builtins.dict_values (get_instances fixtures.cloud_unavailable fixtures.project) = [] /\
  builtins.dict_values (get_instances fixtures.cloud_empty fixtures.project) = [] /\
  report (run_rule fixtures.cloud_unavailable fixtures.project fixtures.prepared).1
    = [lint.add_skipped None "serial port output is unavailable"] /\
  report (run_rule fixtures.cloud_empty fixtures.project fixtures.prepared).1
    = [lint.add_skipped None "No instances found"] /\
  ~ (forall (cloud : Cloud) context (st : State utils.Engine utils.SerialOutputSearch),
       builtins.dict_values (get_instances cloud context) = [] ->
       report (run_rule cloud context st).1
       = report st ++ [lint.add_skipped None no_instances_notice]).
Proof.
  split; [reflexivity|]. split; [reflexivity|].
  split; [vm_compute; reflexivity|]. split; [vm_compute; reflexivity|].
  intros Hclaim.
  specialize (Hclaim fixtures.cloud_unavailable fixtures.project fixtures.prepared eq_refl).
  vm_compute in Hclaim. discriminate Hclaim.
Qed.

Lemma run_rule_zero_instances_witness :
  run_rule fixtures.cloud_empty fixtures.project fixtures.prepared =
    (mkState (logs_by_project fixtures.prepared) (engine fixtures.prepared)
             (report fixtures.prepared ++ [lint.add_skipped None no_instances_notice])
             (queried fixtures.prepared),
     Returned).
Proof.
  apply (run_rule_zero_instances
           fixtures.cloud_empty fixtures.project fixtures.prepared fixtures.search).
  - reflexivity.
  - exact prepared_search.
Defined.

Lemma run_rule_unprepared_KeyError_witness :
  run_rule fixtures.cloud fixtures.project initial_state
    = (initial_state, Raised (KeyError "my-project")).
Proof.
  apply (run_rule_unprepared_KeyError fixtures.cloud fixtures.project initial_state).
  - reflexivity.
  - vm_compute. reflexivity.
Defined.


(** A run that reaches the loop and in which the query for the second
    instance raises: the first instance has its verdict, the exception is
    the outcome of the run, and the other two instances have no verdict. *)
Lemma fetch_error_leaves_instances_without_verdict :
  is_serial_port_one_logs_available fixtures.cloud fixtures.project = true /\
  is_Some (logs_by_project fixtures.prepared_failing
             !! models.project_id fixtures.project) /\
  builtins.dict_values (get_instances fixtures.cloud fixtures.project)
    = [fixtures.vm_b; fixtures.vm_c; fixtures.vm_a] /\
  run_rule fixtures.cloud fixtures.project fixtures.prepared_failing =
    (mkState (logs_by_project fixtures.prepared_failing) 2
             [lint.add_ok fixtures.vm_a] ["1001"; "1002"],
     Raised FetchError) /\
  length (filter (fun c => lint.verdict_of c = Some fixtures.vm_b)
            (report (run_rule fixtures.cloud fixtures.project
                       fixtures.prepared_failing).1)) = 0.
Proof.
  split; [reflexivity|]. split; [vm_compute; by eexists|].
  split; [reflexivity|]. split; vm_compute; reflexivity.
Qed.

Lemma run_rule_one_verdict_per_instance_witness :
  exists calls : list lint.ReportCall,
    report (run_rule fixtures.cloud fixtures.project fixtures.prepared).1 = calls /\
    length calls = 3 /\
    length (filter (fun c => lint.verdict_of c = Some fixtures.vm_a) calls) = 1 /\
    length (filter (fun c => lint.verdict_of c = Some fixtures.vm_b) calls) = 1 /\
    length (filter (fun c => lint.verdict_of c = Some fixtures.vm_c) calls) = 1.
Proof.
  destruct (run_rule_one_verdict_per_instance fixtures.cloud fixtures.project
              fixtures.prepared fixtures.search eq_refl prepared_search)
    as (calls & Hreport & Hperm & Hcalls & Hcount & Hqueried).
  { discriminate. }
  { vm_compute. reflexivity. }
  assert (NoDup (builtins.dict_values (get_instances fixtures.cloud fixtures.project)))
    as Hnd by (apply (bool_decide_unpack _); vm_compute; exact I).
  exists calls. split; [exact Hreport|]. split.
  - rewrite <- (Forall2_length _ _ _ Hcalls), Hperm. reflexivity.
  - repeat split; apply Hcount; try exact Hnd;
      apply (bool_decide_unpack _); vm_compute; exact I.
Defined.

(** Two instances of one name: the two listings hold the same instances,
    both runs return, and the reports differ in the order of the verdicts on
    the two. *)
Lemma equal_names_listing_order_changes_report :
  builtins.dict_values (get_instances fixtures.cloud_twins_reordered fixtures.project) ≡ₚ
    builtins.dict_values (get_instances fixtures.cloud_twins fixtures.project) /\
  report (run_rule fixtures.cloud_twins fixtures.project fixtures.prepared).1 =
    [lint.add_ok fixtures.vm_a_west; lint.add_ok fixtures.vm_a;
     lint.add_failed fixtures.vm_b
       (failed_message fixtures.vm_b fixtures.unsynchronized)] /\
  report (run_rule fixtures.cloud_twins_reordered fixtures.project fixtures.prepared).1 =
    [lint.add_ok fixtures.vm_a; lint.add_ok fixtures.vm_a_west;
     lint.add_failed fixtures.vm_b
       (failed_message fixtures.vm_b fixtures.unsynchronized)] /\
  report (run_rule fixtures.cloud_twins_reordered fixtures.project fixtures.prepared).1
    <> report (run_rule fixtures.cloud_twins fixtures.project fixtures.prepared).1.
Proof.
  split; [apply (bool_decide_unpack _); vm_compute; exact I|].
  split; [vm_compute; reflexivity|]. split; [vm_compute; reflexivity|].
  apply (bool_decide_unpack _). vm_compute. exact I.
Qed.

Lemma run_rule_verdicts_sorted_by_name_witness :
  exists calls : list lint.ReportCall,
    report (run_rule fixtures.cloud fixtures.project fixtures.prepared).1 = calls /\
    lint.verdict_names calls = ["vm-a"; "vm-b"; "vm-c"] /\
    run_rule fixtures.cloud_reordered fixtures.project fixtures.prepared
      = run_rule fixtures.cloud fixtures.project fixtures.prepared.
Proof.
  destruct (run_rule_verdicts_sorted_by_name fixtures.cloud fixtures.project
              fixtures.prepared fixtures.search eq_refl prepared_search)
    as (calls & Hreport & Hprefix & Hall & Hascending & Hlisting).
  exists calls. split; [exact Hreport|]. split.
  - unfold lint.verdict_names. rewrite Hall; [reflexivity|].
    vm_compute. reflexivity.
  - apply (Hlisting fixtures.cloud_reordered).
    + reflexivity.
    + exact (Permutation_cons_append [fixtures.vm_b; fixtures.vm_c] fixtures.vm_a).
    + apply (bool_decide_unpack _). vm_compute. exact I.
    + intros s i e. reflexivity.
Defined.

(** * Further properties of the rule *)

Section RunShape.

Context {E S : Type} `{!SerialSearchIndex E S}.
Variable cloud : Cloud.

Lemma prepare_rule_keeps_entries context (st : State E S) p :
  is_Some (logs_by_project st !! p) ->
  is_Some (logs_by_project (prepare_rule context st).1 !! p).
Proof.
  intros Hp. unfold prepare_rule. destruct (new_search _ _ _) as [e|search]; [done|].
  simpl. destruct (decide (models.project_id context = p)) as [->|Hne].
  - rewrite lookup_insert_eq. by eexists.
  - by rewrite lookup_insert_ne.
Qed.

Lemma rule_call_keeps_entries (st : State E S) c p :
  is_Some (logs_by_project st !! p) ->
  is_Some (logs_by_project (rule_call cloud st c) !! p).
Proof.
  intros Hp. destruct c as [context|context]; unfold rule_call.
  - by apply prepare_rule_keeps_entries.
  - by rewrite run_rule_logs_by_project.
Qed.

(** With a search that never raises the loop returns. *)
Lemma check_instances_never_raises (search : S) l (e : E) :
  (forall i e, exists r, (get_last_match cloud search i e).1 = inr r) ->
  loop_outcome (check_instances cloud search l e) = Returned.
Proof.
  intros Hreturns. revert e. induction l as [|i l IH]; intros e; [done|].
  rewrite check_instances_cons. destruct (Hreturns (gce.id i) e) as [r ->].
  simpl. apply IH.
Qed.

(** X1: [run_rule] only appends to the report and leaves [logs_by_project]
    as it is, whether it returns or raises.  What it appends is one skip
    that names no instance, and then it returns; or verdicts only, at least
    one when it returns.  A skip and a verdict never come from the same
    run. *)
Theorem run_rule_report_shape context (st : State E S) :
  exists calls : list lint.ReportCall,
    report (run_rule cloud context st).1 = report st ++ calls /\
    logs_by_project (run_rule cloud context st).1 = logs_by_project st /\
    ((exists notice, calls = [lint.add_skipped None notice] /\
      (run_rule cloud context st).2 = Returned) \/
     (Forall (fun c => is_Some (lint.verdict_of c)) calls /\
      ((run_rule cloud context st).2 = Returned -> calls <> []))).
Proof.
  destruct (run_rule_cases cloud context st)
    as [[_ ->]|[(_ & _ & ->)|[(s & _ & _ & _ & ->)|(s & r & _ & _ & Hne & -> & ->)]]];
    simpl.
  - eexists. split; [done|]. split; [done|]. left. by eexists.
  - exists []. split; [by rewrite app_nil_r|]. split; [done|]. right. by split.
  - eexists. split; [done|]. split; [done|]. left. by eexists.
  - eexists. split; [done|]. split; [done|]. right.
    split; [apply check_instances_verdicts|].
    intros Hret Hnil.
    destruct (check_instances_returned cloud _ _ _ Hret) as (_ & Hlength & _).
    rewrite Hnil, sorted_length in Hlength.
    by apply Hne, length_zero_iff_nil.
Qed.

(** X2: a run that returns is never silent.  It makes one reporter call when
    the serial port logs are unavailable, whatever the number of instances,
    one when they are available and no instance is in scope, and else as
    many calls as there are instances in scope. *)
Theorem run_rule_call_count context (st : State E S) :
  (run_rule cloud context st).2 = Returned ->
  length (report (run_rule cloud context st).1) =
  length (report st) +
  (if is_serial_port_one_logs_available cloud context
   then Nat.max 1 (length (get_instances cloud context))
   else 1).
Proof.
  destruct (run_rule_cases cloud context st)
    as [[Ha ->]|[(Ha & _ & ->)|[(s & Ha & _ & Hl & ->)|(s & r & Ha & _ & Hl & -> & ->)]]];
    simpl; rewrite Ha; try done.
  - intros _. by rewrite length_app.
  - intros _. rewrite length_app. simpl.
    unfold builtins.dict_values in Hl. apply fmap_nil_inv in Hl. by rewrite Hl.
  - intros Hret.
    destruct (check_instances_returned cloud _ _ _ Hret) as (_ & Hlength & _).
    rewrite length_app, Hlength, sorted_length.
    unfold builtins.dict_values in *. rewrite length_fmap.
    destruct (get_instances cloud context); [done|]. simpl. lia.
Qed.

(** X3: a registration is never lost.  Once [prepare_rule] has returned for
    a context, [logs_by_project] keeps an entry for its project through any
    further calls of [prepare_rule] and [run_rule] for any contexts, whether
    they return or raise, so the lookup of [run_rule] finds it; with a
    search engine whose [get_last_match] never raises, [run_rule] for the
    context then returns. *)
Theorem prepared_entry_is_kept context (st : State E S) (calls : list RuleCall) :
  (prepare_rule context st).2 = Returned ->
  is_Some (logs_by_project (foldl (rule_call cloud) (prepare_rule context st).1 calls)
             !! models.project_id context) /\
  ((forall (search : S) i (e : E), exists r, (get_last_match cloud search i e).1 = inr r) ->
   (run_rule cloud context
      (foldl (rule_call cloud) (prepare_rule context st).1 calls)).2 = Returned).
Proof.
  intros Hprepared.
  assert (is_Some (logs_by_project
                     (foldl (rule_call cloud) (prepare_rule context st).1 calls)
                     !! models.project_id context)) as Hkept.
  { assert (is_Some (logs_by_project (prepare_rule context st).1
                       !! models.project_id context)) as Hentry.
    { unfold prepare_rule in *. destruct (new_search _ _ _) as [e|search]; [done|].
      simpl. rewrite lookup_insert_eq. by eexists. }
    revert Hentry. generalize (prepare_rule context st).1. clear Hprepared.
    induction calls as [|c calls IH]; intros st' Hentry; [done|].
    simpl. by apply IH, rule_call_keeps_entries. }
  split; [done|]. intros Hreturns. destruct Hkept as [search Hsearch].
  destruct (run_rule_cases cloud context
              (foldl (rule_call cloud) (prepare_rule context st).1 calls))
    as [[_ ->]|[(_ & Hs & _)|[(s & _ & _ & _ & ->)|(s & r & _ & _ & _ & -> & ->)]]];
    try done; [congruence|].
  simpl. apply check_instances_never_raises, Hreturns.
Qed.

(** X4: [run_rule] asks [get_last_match] only for ids of instances in scope,
    and all it does to the engine is to put these queries, in this order, to
    the search registered for the project of the context. *)
Theorem run_rule_queries_in_scope context (st : State E S) :
  exists ids : list string,
    queried (run_rule cloud context st).1 = queried st ++ ids /\
    (forall i, i ∈ ids ->
       exists instance,
         instance ∈ builtins.dict_values (get_instances cloud context) /\
         gce.id instance = i) /\
    engine (run_rule cloud context st).1 =
      match logs_by_project st !! models.project_id context with
      | Some search => engine_after cloud search ids (engine st)
      | None => engine st
      end.
Proof.
  destruct (run_rule_cases cloud context st)
    as [[_ ->]|[(_ & Hs & ->)|[(s & _ & Hs & _ & ->)|(s & r & _ & Hs & _ & -> & ->)]]];
    simpl; rewrite ?Hs.
  - exists []. rewrite app_nil_r. split; [done|]. split.
    + intros i Hi. by apply elem_of_nil in Hi.
    + by destruct (logs_by_project st !! models.project_id context).
  - exists []. rewrite app_nil_r. split; [done|]. split; [|done].
    intros i Hi. by apply elem_of_nil in Hi.
  - exists []. rewrite app_nil_r. split; [done|]. split; [|done].
    intros i Hi. by apply elem_of_nil in Hi.
  - eexists. split; [done|]. split; [|apply check_instances_engine].
    intros i Hi.
    destruct (check_instances_ids_prefix cloud s
                (builtins.sorted gce.name
                   (builtins.dict_values (get_instances cloud context)))
                (engine st)) as [rest Hrest].
    assert (i ∈ gce.id <$> builtins.sorted gce.name
                  (builtins.dict_values (get_instances cloud context))) as Hin.
    { rewrite Hrest. apply elem_of_app. by left. }
    apply list_elem_of_fmap in Hin as (instance & -> & Hin).
    exists instance. split; [|done].
    by rewrite <- (sorted_Permutation gce.name).
Qed.

End RunShape.

Section RunOrder.

Context {E S : Type} `{!SerialSearchIndex E S}.
Variable cloud : Cloud.

(** X5: preparing the rule for another project does not change what a run
    for this project reports, queries, does to the engine or returns. *)
Theorem prepare_other_project_no_interference context context' (st : State E S) :
  models.project_id context' <> models.project_id context ->
  report (run_rule cloud context (prepare_rule context' st).1).1
    = report (run_rule cloud context st).1 /\
  queried (run_rule cloud context (prepare_rule context' st).1).1
    = queried (run_rule cloud context st).1 /\
  engine (run_rule cloud context (prepare_rule context' st).1).1
    = engine (run_rule cloud context st).1 /\
  (run_rule cloud context (prepare_rule context' st).1).2
    = (run_rule cloud context st).2.
Proof.
  intros Hne. unfold prepare_rule.
  destruct (new_search context' _ _) as [e|search']; [done|].
  unfold run_rule. simpl. rewrite lookup_insert_ne by done.
  destruct (is_serial_port_one_logs_available cloud context); simpl; [|done].
  destruct (logs_by_project st !! models.project_id context) as [search|]; [|done].
  by destruct (builtins.is_empty _).
Qed.

(** X6: when the instances in scope have distinct names, the run does not
    depend on the order in which [get_instances] lists them: for two clouds
    that differ in the listing order only, [run_rule] gives the same state
    and outcome. *)
Theorem run_rule_listing_order_irrelevant (cloud' : Cloud) context (st : State E S) :
  is_serial_port_one_logs_available cloud' context
    = is_serial_port_one_logs_available cloud context ->
  builtins.dict_values (get_instances cloud' context) ≡ₚ
    builtins.dict_values (get_instances cloud context) ->
  NoDup (gce.name <$> builtins.dict_values (get_instances cloud context)) ->
  (forall s i e, get_last_match cloud' s i e = get_last_match cloud s i e) ->
  run_rule cloud' context st = run_rule cloud context st.
Proof. apply run_rule_same_instances. Qed.

(** X7: instances that share a name are reported in the order in which
    [get_instances] lists them: for every name, the verdicts about the
    instances of that name follow the listing, up to the point where the run
    ends, and cover all of them when the run returns. *)
Theorem run_rule_equal_names_keep_listing_order context (st : State E S) search :
  is_serial_port_one_logs_available cloud context = true ->
  logs_by_project st !! models.project_id context = Some search ->
  exists calls : list lint.ReportCall,
    report (run_rule cloud context st).1 = report st ++ calls /\
    forall n,
      filter (fun i => gce.name i = n) (omap lint.verdict_of calls) `prefix_of`
        filter (fun i => gce.name i = n)
               (builtins.dict_values (get_instances cloud context)) /\
      ((run_rule cloud context st).2 = Returned ->
       filter (fun i => gce.name i = n) (omap lint.verdict_of calls) =
       filter (fun i => gce.name i = n)
              (builtins.dict_values (get_instances cloud context))).
Proof.
  intros Havail Hsearch.
  destruct (run_rule_cases cloud context st)
    as [[Ha _]|[(_ & Hs & _)|[(s & _ & _ & Hl & ->)|(s & r & _ & Hs & _ & -> & ->)]]];
    try congruence; simpl.
  - eexists. split; [done|]. intros n. by rewrite Hl.
  - eexists. split; [done|]. intros n.
    assert (filter (fun i => gce.name i = n)
              (builtins.sorted gce.name
                 (builtins.dict_values (get_instances cloud context)))
            = filter (fun i => gce.name i = n)
                (builtins.dict_values (get_instances cloud context))) as Hstable.
    { rewrite <- !filter_bool_decide. apply (sorted_stable gce.name). }
    split.
    + rewrite <- Hstable. apply prefix_filter, check_instances_omap_prefix.
    + intros Hret.
      destruct (check_instances_returned cloud _ _ _ Hret) as (-> & _ & _).
      exact Hstable.
Qed.

(** X8: every failed verdict that a run adds to the report is about an
    instance in scope, and its message is the one built for that instance
    from a log entry: it opens with the line that names the instance. *)
Theorem run_rule_failed_message_names_instance context (st : State E S) r msg :
  lint.add_failed r msg ∈
    drop (length (report st)) (report (run_rule cloud context st).1) ->
  r ∈ builtins.dict_values (get_instances cloud context) /\
  (exists m, msg = failed_message r m) /\
  text.startswith
    ("Time synchronization errors detected on instance " +:+ gce.name r +:+ "."
       +:+ text.nl) msg = true.
Proof.
  assert (forall m,
    text.startswith
      ("Time synchronization errors detected on instance " +:+ gce.name r +:+ "."
         +:+ text.nl) (failed_message r m) = true) as Hopens.
  { intros m. apply startswith_spec. eexists. unfold failed_message.
    by rewrite !append_assoc. }
  destruct (run_rule_cases cloud context st)
    as [[_ ->]|[(_ & _ & ->)|[(s & _ & _ & _ & ->)|(s & l & _ & _ & _ & -> & ->)]]];
    simpl; rewrite ?drop_app_length, ?drop_all.
  - intros Hin%list_elem_of_singleton. discriminate Hin.
  - intros Hin. by apply elem_of_nil in Hin.
  - intros Hin%list_elem_of_singleton. discriminate Hin.
  - intros (i & m & Hi & Hc)%check_instances_elem_of.
    destruct m as [m|]; [|discriminate Hc]. simpl in Hc. simplify_eq.
    split; [by rewrite <- (sorted_Permutation gce.name)|].
    split; [by eexists | apply Hopens].
Qed.

End RunOrder.

(** * Further runs on concrete clouds *)

Lemma run_rule_call_count_witness :
  length (report (run_rule fixtures.cloud_logs_off fixtures.project fixtures.prepared).1) = 1 /\
  length (report (run_rule fixtures.cloud_empty fixtures.project fixtures.prepared).1) = 1 /\
  length (report (run_rule fixtures.cloud fixtures.project fixtures.prepared).1) = 3.
Proof.
  split; [|split].
  - apply (run_rule_call_count fixtures.cloud_logs_off fixtures.project fixtures.prepared).
    reflexivity.
  - apply (run_rule_call_count fixtures.cloud_empty fixtures.project fixtures.prepared).
    vm_compute. reflexivity.
  - apply (run_rule_call_count fixtures.cloud fixtures.project fixtures.prepared).
    vm_compute. reflexivity.
Defined.

Lemma prepared_entry_is_kept_witness :
  is_Some (logs_by_project
             (foldl (rule_call fixtures.cloud)
                (prepare_rule fixtures.project initial_state).1
                [CallPrepare fixtures.other_project; CallRun fixtures.other_project;
                 CallRun fixtures.project; CallPrepare fixtures.project])
             !! "my-project") /\
  (run_rule fixtures.cloud fixtures.project
     (foldl (rule_call fixtures.cloud) (prepare_rule fixtures.project initial_state).1
        [CallPrepare fixtures.other_project; CallRun fixtures.other_project;
         CallRun fixtures.project; CallPrepare fixtures.project])).2 = Returned.
Proof.
  destruct (prepared_entry_is_kept fixtures.cloud fixtures.project initial_state
              [CallPrepare fixtures.other_project; CallRun fixtures.other_project;
               CallRun fixtures.project; CallPrepare fixtures.project])
    as [Hkept Hreturns].
  - reflexivity.
  - split; [exact Hkept|]. apply Hreturns.
    intros search i e. eexists. reflexivity.
Defined.

Lemma run_rule_queries_in_scope_witness :
  exists ids : list string,
    queried (run_rule fixtures.cloud fixtures.project fixtures.prepared).1 = ids /\
    forall i, i ∈ ids -> i ∈ ["1002"; "1003"; "1001"].
Proof.
  destruct (run_rule_queries_in_scope fixtures.cloud fixtures.project fixtures.prepared)
    as (ids & Hqueried & Hscope & _).
  exists ids. split; [exact Hqueried|].
  intros i Hi. destruct (Hscope i Hi) as (instance & Hin & <-).
  change (gce.id instance ∈ gce.id <$> [fixtures.vm_b; fixtures.vm_c; fixtures.vm_a]).
  by apply list_elem_of_fmap_2.
Defined.

Lemma prepare_other_project_no_interference_witness :
  report (run_rule fixtures.cloud fixtures.project
            (prepare_rule fixtures.other_project fixtures.prepared).1).1
    = report (run_rule fixtures.cloud fixtures.project fixtures.prepared).1 /\
  (run_rule fixtures.cloud fixtures.project
     (prepare_rule fixtures.other_project fixtures.prepared).1).2
    = (run_rule fixtures.cloud fixtures.project fixtures.prepared).2.
Proof.
  destruct (prepare_other_project_no_interference fixtures.cloud
              fixtures.project fixtures.other_project fixtures.prepared)
    as (Hreport & _ & _ & Houtcome).
  - discriminate.
  - split; [exact Hreport | exact Houtcome].
Defined.

Lemma run_rule_listing_order_irrelevant_witness :
  run_rule fixtures.cloud_reordered fixtures.project fixtures.prepared
  = run_rule fixtures.cloud fixtures.project fixtures.prepared.
Proof.
  apply (run_rule_listing_order_irrelevant fixtures.cloud fixtures.cloud_reordered
           fixtures.project fixtures.prepared).
  - reflexivity.
  - exact (Permutation_cons_append [fixtures.vm_b; fixtures.vm_c] fixtures.vm_a).
  - apply (bool_decide_unpack _). vm_compute. exact I.
  - intros s i e. reflexivity.
Defined.

Lemma run_rule_equal_names_keep_listing_order_witness :
  exists calls : list lint.ReportCall,
    report (run_rule fixtures.cloud_twins fixtures.project fixtures.prepared).1 = calls /\
    filter (fun i => gce.name i = "vm-a") (omap lint.verdict_of calls)
      = [fixtures.vm_a_west; fixtures.vm_a].
Proof.
  destruct (run_rule_equal_names_keep_listing_order fixtures.cloud_twins
              fixtures.project fixtures.prepared fixtures.search eq_refl prepared_search)
    as (calls & Hreport & Horder).
  exists calls. split; [exact Hreport|].
  destruct (Horder "vm-a") as [_ Hall]. rewrite Hall.
  - vm_compute. reflexivity.
  - vm_compute. reflexivity.
Defined.

Lemma run_rule_failed_message_names_instance_witness :
  fixtures.vm_b ∈ [fixtures.vm_b; fixtures.vm_c; fixtures.vm_a] /\
  text.startswith
    ("Time synchronization errors detected on instance vm-b." +:+ text.nl)
    (failed_message fixtures.vm_b fixtures.unsynchronized) = true.
Proof.
  destruct (run_rule_failed_message_names_instance fixtures.cloud fixtures.project
              fixtures.prepared fixtures.vm_b
              (failed_message fixtures.vm_b fixtures.unsynchronized))
    as (Hscope & _ & Hopens).
  - apply (bool_decide_unpack _). vm_compute. exact I.
  - split; [exact Hscope | exact Hopens].
Defined.

Lemma prefilter_keeps_other_patterns_witness :
  patterns.satisfies_filter filter_str
    "ntpd[811]: no servers can be used, system clock unsynchronized" = true.
Proof.
  apply (prefilter_keeps_other_patterns
           "ntpd[811]: no servers can be used, system clock unsynchronized"
           "no servers can be used, system clock unsynchronized").
  - apply (bool_decide_unpack _). vm_compute. exact I.
  - discriminate.
  - vm_compute. reflexivity.
Defined.
